(** * main_coronaSEIR.py: SEIR model, observable series and the deaths loop

    A shallow embedding of [src/main_coronaSEIR.py].

    Numbers.  The script computes with Python [float] / numpy [float64]
    values and with one numpy [int64] array ([D]).  Floating-point values
    are read here as real numbers ([R]): every arithmetic expression keeps
    the shape it has in the source, but rounding error, infinities and NaN
    are not represented.  The [int64] array is a [list Z]; a value stored
    into it goes through [trunc], the truncation toward zero that numpy
    applies when a float is assigned into an integer array (the 64-bit
    range is not modelled: the stored values are death counts).

    Parameters.  [scipy.integrate.odeint] is a third-party solver and
    [shared.delay] belongs to the module [shared], which this file does not
    embed; both are taken as parameters of the section [Script].  The module-level setting [daysTotal], which [solve] and the
    deaths loop read as a global, is a parameter of that section as well
    (the script sets it to [365]). *)

From Stdlib Require Import Reals Lra Lia ZArith List Bool.
Import ListNotations.

Open Scope R_scope.

(* ================================================================== *)
(** * Python values *)
(* ================================================================== *)

(** An [int] used where the script mixes it with floats. *)
Coercion IZR : Z >-> R.

(** Exceptions that can leave the modelled code. *)
Inductive exn : Type :=
| IndexError                (* a subscript out of range *)
| LibraryError.             (* raised inside a third-party call *)

(** What a call produces: a value, or a raised exception. *)
Inductive outcome (A : Type) : Type :=
| Returns (a : A)
| Raises (e : exn).

Arguments Returns {A} a.
Arguments Raises {A} e.

Definition bind {A B : Type} (c : outcome A) (k : A -> outcome B) : outcome B :=
  match c with
  | Returns a => k a
  | Raises e => Raises e
  end.

Notation "x <- c ;; k" := (bind c (fun x => k))
  (at level 61, c at next level, right associativity).

(** [l[i]] for a non-negative index. *)
Definition getitem {A : Type} (l : list A) (i : nat) : outcome A :=
  match nth_error l i with
  | Some v => Returns v
  | None => Raises IndexError
  end.

Fixpoint update {A : Type} (l : list A) (i : nat) (v : A) : list A :=
  match l, i with
  | [], _ => []
  | _ :: l', O => v :: l'
  | a :: l', S j => a :: update l' j v
  end.

(** [l[i] = v] for a non-negative index. *)
Definition setitem {A : Type} (l : list A) (i : nat) (v : A) : outcome (list A) :=
  if Nat.ltb i (length l) then Returns (update l i v) else Raises IndexError.

(** [for i in idx: st = body(st, i)], stopping at the first exception. *)
Fixpoint for_each {St : Type} (body : St -> nat -> outcome St)
    (st : St) (idx : list nat) : outcome St :=
  match idx with
  | [] => Returns st
  | i :: rest => st' <- body st i ;; for_each body st' rest
  end.

(** Conversion of a float to an integer array element: toward zero. *)
Definition trunc (x : R) : Z :=
  if Rle_dec 0 x then Int_part x else (- Int_part (- x))%Z.

(** Python 3 [round(x)] on a float: nearest integer, ties to even. *)
Definition py_round (x : R) : Z :=
  let f := Int_part x in
  let r := x - IZR f in
  if Rlt_dec r (1 / 2) then f
  else if Rlt_dec (1 / 2) r then (f + 1)%Z
  else if Z.even f then f else (f + 1)%Z.

(** [math.e] and the two-argument [math.log(x, base)]. *)
Definition math_e : R := exp 1.
Definition math_log (x base : R) : R := ln x / ln base.

(** [np.arange(n)]. *)
Definition arange (n : nat) : list Z := map Z.of_nat (seq 0 n).

(** [np.cumsum]: the running total, carried from left to right. *)
Fixpoint cumsum_from (acc : R) (l : list R) : list R :=
  match l with
  | [] => []
  | v :: l' => (acc + v) :: cumsum_from (acc + v) l'
  end.

Definition cumsum (l : list R) : list R := cumsum_from 0 l.

(** Sum of a list, used to state what [cumsum] holds at an index. *)
Definition total (l : list R) : R := fold_right Rplus 0 l.

(* ------------------------------------------------------------------ *)
(** ** Dates ([datetime] differences in whole days) *)
(* ------------------------------------------------------------------ *)

Record date : Type := { year : Z; month : Z; day : Z }.

Definition is_leap (y : Z) : bool :=
  ((y mod 4 =? 0) && (negb (y mod 100 =? 0) || (y mod 400 =? 0)))%Z.

Definition days_before_year (y : Z) : Z :=
  (let p := y - 1 in p * 365 + p / 4 - p / 100 + p / 400)%Z.

Definition days_in_month (y m : Z) : Z :=
  (if m =? 2 then (if is_leap y then 29 else 28)
   else if (m =? 4) || (m =? 6) || (m =? 9) || (m =? 11) then 30
   else 31)%Z.

Definition days_before_month (y m : Z) : Z :=
  fold_right Z.add 0%Z
    (map (fun k => days_in_month y (Z.of_nat k)) (seq 1 (Z.to_nat m - 1))).

Definition toordinal (d : date) : Z :=
  (days_before_year (year d) + days_before_month (year d) (month d) + day d)%Z.

(** [(a - b).days] *)
Definition days_between (a b : date) : Z := (toordinal a - toordinal b)%Z.

(* ================================================================== *)
(** * Module-level parameters of the script *)
(* ================================================================== *)

(** --- external parameters --- *)
Definition florida_population : Z := 21992985.
Definition E0 : Z := 1.

(** --- interactive parameters --- *)
Definition population : Z := florida_population.
Definition intensive_units : Z := 5604.
Definition date_of_first_infection : date := {| year := 2020; month := 2; day := 1 |}.
Definition date_of_lockdown : date := {| year := 2020; month := 4; day := 1 |}.

Definition r0 : R := 3.0.
Definition r1 : R := 1.0.

(** --- derived parameters --- *)
Definition days_before_lockdown : Z :=
  days_between date_of_lockdown date_of_first_infection.

Definition days_presymptomatic : R := 2.5.
Definition days_to_incubation : R := 5.2.

Definition sigma : R := 1.0 / (days_to_incubation - days_presymptomatic).

Definition generation_time : R := 4.6.

Definition gamma : R := 1.0 / (2.0 * (generation_time - 1.0 / sigma)).

Definition percent_asymptomatic : R := 0.35.
Definition percent_cases_detected : R := (1.0 - percent_asymptomatic) / 20.0.

Definition timeInHospital : Z := 12.
Definition timeInfected : R := 1.0 / gamma.

Definition presymptomaticLag : Z := py_round days_presymptomatic.
Definition communicationLag : Z := 2.
Definition testLag : Z := 3.
Definition symptomToHospitalLag : Z := 5.
Definition hospitalToIcuLag : Z := 5.

Definition infectionFatalityRateA : R := 0.01.
Definition infectionFatalityRateB : R := infectionFatalityRateA * 3.0.
Definition icuRate : R := infectionFatalityRateA * 2.

Definition beta0 : R := r0 * gamma.
Definition beta1 : R := r1 * gamma.

Definition s1 : R :=
  0.5 * (- (sigma + gamma)
         + sqrt ((sigma + gamma) ^ 2 + 4 * sigma * gamma * (r0 - 1))).
Definition doublingTime : R := math_log 2.0 math_e / s1.

(* ================================================================== *)
(** * The compartment model *)
(* ================================================================== *)

(** [Y]: the four compartments S, E, I, R. *)
Definition state : Type := (R * R * R * R)%type.

Definition model (Y : state) (x : R) (N beta0 days0 beta1 gamma sigma : R) : state :=
  let '(S_, E_, I_, R_) := Y in
  let beta := if Rlt_dec x days0 then beta0 else beta1 in
  let dS := - beta * S_ * I_ / N in
  let dE := beta * S_ * I_ / N - sigma * E_ in
  let dI := sigma * E_ - gamma * I_ in
  let dR := gamma * I_ in
  (dS, dE, dI, dR).

(** The type of [model], as [solve] receives it. *)
Definition model_fn : Type := state -> R -> R -> R -> R -> R -> R -> R -> state.

(** What a call of [scipy.integrate.odeint] leaves behind: the array [y]
    (one row per requested time) and whether the solver reports success.
    The call in [solve] does not pass [full_output], so only [y] reaches
    the caller; scipy reports a failed integration through a warning. *)
Record odeint_run : Type := { y_data : list state; converged : bool }.

Definition odeint_fn : Type :=
  (state -> R -> state) -> state -> list R -> outcome odeint_run.

(** The four columns of [y_data_var.T]. *)
Definition col_S (y : list state) : list R := map (fun '(s, _, _, _) => s) y.
Definition col_E (y : list state) : list R := map (fun '(_, e, _, _) => e) y.
Definition col_I (y : list state) : list R := map (fun '(_, _, i, _) => i) y.
Definition col_R (y : list state) : list R := map (fun '(_, _, _, r) => r) y.

(** The tuple [X, S, E, I, R] returned by [solve]. *)
Record trajectory : Type :=
  { tX : list Z; tS : list R; tE : list R; tI : list R; tR : list R }.

(* ================================================================== *)
(** * The script, over its solver, its delay operator and [daysTotal] *)
(* ================================================================== *)

Section Script.

(** [daysTotal]: "total days to model", read as a global by [solve] and
    by the deaths loop. *)
Variable daysTotal : nat.

(** [scipy.integrate.odeint(func, y0, t, args=...)], with [args] already
    applied to [func]. *)
Variable odeint : odeint_fn.

(** [shared.delay(series, days)], taken as a function of its two arguments:
    a call returns a series and does not raise. *)
Variable delay : list R -> R -> list R.

Definition solve (model : model_fn)
    (population E0 beta0 days0 beta1 gamma sigma : R) : outcome trajectory :=
  let X := arange daysTotal in
  let N0 := (population - E0, E0, 0, 0) in
  run <- odeint (fun Y x => model Y x population beta0 days0 beta1 gamma sigma)
                N0 (map IZR X) ;;
  let y_data_var := y_data run in
  Returns {| tX := X;
             tS := col_S y_data_var; tE := col_E y_data_var;
             tI := col_I y_data_var; tR := col_R y_data_var |}.

(** ** Derived arrays (before any delay) *)

Definition F_raw (I_ : list R) : list R :=
  map (fun v => v * percent_cases_detected) I_.

Definition U_raw (I_ : list R) : list R :=
  map (fun v => v * icuRate * timeInHospital / timeInfected) I_.

Definition P (I_ : list R) : list R :=
  map (fun v => v / population * 1000000) I_.

(** ** The lags handed to [shared.delay] *)

Definition F_lag : R :=
  days_presymptomatic + symptomToHospitalLag + testLag + communicationLag.

Definition U_lag : R :=
  days_presymptomatic + symptomToHospitalLag + hospitalToIcuLag.

Definition U_correction : Z :=
  py_round ((timeInHospital / timeInfected - 1) * timeInfected).

Definition D_lag : R :=
  - timeInfected + days_presymptomatic + symptomToHospitalLag
  + timeInHospital + communicationLag.

(** ** Delayed series *)

Definition F (I_ : list R) : list R := delay (F_raw I_) F_lag.

Definition U (I_ : list R) : list R :=
  delay (delay (U_raw I_) U_lag) U_correction.

Definition FC (I_ : list R) : list R := cumsum (F I_).

(** ** Deaths, estimated from recovered *)

(** The variables the loop carries: the array [D] and the two scalars. *)
Record loop_state : Type := { D_arr : list Z; RPrev : R; DPrev : Z }.

Definition IFR_of (u : R) : R :=
  if Rle_dec u intensive_units
  then infectionFatalityRateA else infectionFatalityRateB.

Definition deaths_body (U_ R_ : list R) (st : loop_state) (i : nat)
    : outcome loop_state :=
  u <- getitem U_ i ;;
  let IFR := IFR_of u in
  r <- getitem R_ i ;;
  D' <- setitem (D_arr st) i (trunc (DPrev st + IFR * (r - RPrev st))) ;;
  r' <- getitem R_ i ;;
  d' <- getitem D' i ;;
  Returns {| D_arr := D'; RPrev := r'; DPrev := d' |}.

(** Lines 133-140: [D = np.arange(daysTotal)] and the loop over
    [enumerate(X)]. *)
Definition deaths_loop (X : list Z) (U_ R_ : list R) : outcome (list Z) :=
  st <- for_each (deaths_body U_ R_)
          {| D_arr := arange daysTotal; RPrev := 0; DPrev := 0 |}
          (seq 0 (length X)) ;;
  Returns (D_arr st).

(** Line 142: the integer array handed to [shared.delay]. *)
Definition D_delayed (D : list Z) : list R := delay (map IZR D) D_lag.

(** ** The run, lines 113-143 *)

Record series : Type :=
  { sX : list Z; sS : list R; sE : list R; sI : list R; sR : list R;
    sF : list R; sU : list R; sP : list R; sFC : list R; sD : list R }.

Definition run : outcome series :=
  t <- solve model population E0 beta0 days_before_lockdown beta1 gamma sigma ;;
  let U_ := U (tI t) in
  D <- deaths_loop (tX t) U_ (tR t) ;;
  Returns {| sX := tX t; sS := tS t; sE := tE t; sI := tI t; sR := tR t;
             sF := F (tI t); sU := U_; sP := P (tI t);
             sFC := FC (tI t); sD := D_delayed D |}.

End Script.

(* ================================================================== *)
(** * Reference notions the properties are stated against *)
(* ================================================================== *)

(** [R[i-1]] and [D[i-1]], with the value [0] before the first day. *)
Definition prev_R (l : list R) (i : nat) : R :=
  match i with O => 0 | S j => nth j l 0 end.

Definition prev_Z (l : list Z) (i : nat) : Z :=
  match i with O => 0%Z | S j => nth j l 0%Z end.

(** The recurrence on real numbers, without any rounding:
    [Deaths[i] = Deaths[i-1] + IFR(i) * (R[i] - R[i-1])]. *)
Fixpoint Deaths_exact (U_ R_ : list R) (i : nat) : R :=
  IFR_of (nth i U_ 0) * (nth i R_ 0 - prev_R R_ i)
  + match i with O => 0 | S j => Deaths_exact U_ R_ j end.

(** What day [i] of the loop stores, given the array as it stands: the
    previous (already truncated) entry plus the day's increment, truncated. *)
Definition stored (U_ R_ : list R) (D : list Z) (i : nat) : Z :=
  trunc (IZR (prev_Z D i) + IFR_of (nth i U_ 0) * (nth i R_ 0 - prev_R R_ i)).

(** The state of the loop on entry to iteration [k] of [n]. *)
Definition loop_inv (n : nat) (U_ R_ : list R) (k : nat) (st : loop_state) : Prop :=
  length (D_arr st) = n /\
  RPrev st = prev_R R_ k /\
  DPrev st = prev_Z (D_arr st) k /\
  forall i, (i < k)%nat -> nth i (D_arr st) 0%Z = stored U_ R_ (D_arr st) i.

(** The reading of "a failed integration is surfaced as an error": whenever
    the solver's run is flagged as not converged, [solve] raises. *)
Definition surfaces_failure (daysTotal : nat) (odeint : odeint_fn) : Prop :=
  forall (m : model_fn) (N E0 b0 d0 b1 g s : R) (run : odeint_run),
    odeint (fun Y x => m Y x N b0 d0 b1 g s) (N - E0, E0, 0, 0)
           (map IZR (arange daysTotal)) = Returns run ->
    converged run = false ->
    exists e, solve daysTotal odeint m N E0 b0 d0 b1 g s = Raises e.

(** A differentiable path of the system: continuous on [0, T], and at every
    interior time other than the switch day each compartment has the
    derivative [model] returns. *)
Definition sum4 (Y : state) : R := let '(s, e, i, r) := Y in s + e + i + r.

Definition dS_of (Y : state) : R := let '(s, _, _, _) := Y in s.
Definition dE_of (Y : state) : R := let '(_, e, _, _) := Y in e.
Definition dI_of (Y : state) : R := let '(_, _, i, _) := Y in i.
Definition dR_of (Y : state) : R := let '(_, _, _, r) := Y in r.

Definition path_sum (s e i r : R -> R) (t : R) : R := s t + e t + i t + r t.

Definition exact_solution (s e i r : R -> R)
    (T N beta0 days0 beta1 gamma sigma : R) : Prop :=
  (forall t, 0 <= t <= T ->
     continuity_pt s t /\ continuity_pt e t /\
     continuity_pt i t /\ continuity_pt r t) /\
  (forall t, 0 < t < T -> t <> days0 ->
     let d := model (s t, e t, i t, r t) t N beta0 days0 beta1 gamma sigma in
     derivable_pt_lim s t (dS_of d) /\ derivable_pt_lim e t (dE_of d) /\
     derivable_pt_lim i t (dI_of d) /\ derivable_pt_lim r t (dR_of d)).

(** Two states that agree within [tol] in every compartment. *)
Definition close_to (tol : R) (Y Z : state) : Prop :=
  let '(a, b, c, d) := Y in
  let '(a', b', c', d') := Z in
  Rabs (a - a') <= tol /\ Rabs (b - b') <= tol /\
  Rabs (c - c') <= tol /\ Rabs (d - d') <= tol.

(** A state multiplied through by a factor. *)
Definition scale_state (c : R) (Y : state) : state :=
  let '(s, e, i, r) := Y in (c * s, c * e, c * i, c * r).

(** A delay operator that returns as many values as it is given. *)
Definition keeps_length (delay : list R -> R -> list R) : Prop :=
  forall l d, length (delay l d) = length l.

(* ================================================================== *)
(** * Stand-ins for the parameters, used to instantiate the results *)
(* ================================================================== *)

Module Standin.

Definition add_scaled (y : state) (h : R) (d : state) : state :=
  let '(s, e, i, r) := y in
  let '(ds, de, di, dr) := d in
  (s + h * ds, e + h * de, i + h * di, r + h * dr).

(** Explicit Euler over the requested times. *)
Fixpoint euler_rows (f : state -> R -> state) (y : state) (t : R)
    (ts : list R) : list state :=
  match ts with
  | [] => []
  | t' :: ts' =>
      let y' := add_scaled y (t' - t) (f y t) in
      y' :: euler_rows f y' t' ts'
  end.

Definition euler : odeint_fn := fun f y0 ts =>
  match ts with
  | [] => Raises LibraryError
  | t0 :: ts' =>
      Returns {| y_data := y0 :: euler_rows f y0 t0 ts'; converged := true |}
  end.

(** A solver that gives up after the first row: the remaining rows are
    left at zero and the run is flagged as not converged. *)
Definition stalled : odeint_fn := fun f y0 ts =>
  match ts with
  | [] => Raises LibraryError
  | _ :: ts' =>
      Returns {| y_data := y0 :: map (fun _ => (0, 0, 0, 0)) ts';
                 converged := false |}
  end.

(** Without transmission ([beta0 = beta1 = 0]) the system is linear and has a
    closed form: one exposed person passes through E and I into R at the
    script's rates [sigma] and [gamma], the susceptibles stay put. *)
Definition iso_S (N t : R) : R := N - 1.
Definition iso_E (t : R) : R := exp (- sigma * t).
Definition iso_I (t : R) : R :=
  sigma / (gamma - sigma) * (exp (- sigma * t) - exp (- gamma * t)).
Definition iso_R (t : R) : R := 1 - iso_E t - iso_I t.

(** A solver that returns a given path at the requested times, off by a
    fixed error in each compartment. *)
Definition sampled (path : R -> state) (noise : state) : odeint_fn :=
  fun _ _ ts =>
    Returns {| y_data := map (fun t => add_scaled (path t) 1 noise) ts;
               converged := true |}.

(** A delay operator that leaves the series where it is. *)
Definition unshifted (l : list R) (d : R) : list R := l.

End Standin.

(* ================================================================== *)
(** * Arithmetic of the conversions *)
(* ================================================================== *)

Lemma Int_part_eq (x : R) (z : Z) : IZR z <= x < IZR z + 1 -> Int_part x = z.
Proof. intros H. symmetry. apply Int_part_spec. lra. Qed.

Lemma trunc_eq (x : R) (z : Z) :
  (0 <= z)%Z -> IZR z <= x < IZR z + 1 -> trunc x = z.
Proof.
  intros Hz H. unfold trunc. apply IZR_le in Hz.
  destruct (Rle_dec 0 x); [|lra]. now apply Int_part_eq.
Qed.

(** Truncation moves a value by less than one. *)
Lemma trunc_close (x : R) : Rabs (IZR (trunc x) - x) < 1.
Proof.
  unfold trunc. destruct (Rle_dec 0 x).
  - destruct (base_Int_part x). apply Rabs_def1; lra.
  - destruct (base_Int_part (- x)). rewrite opp_IZR. apply Rabs_def1; lra.
Qed.

Lemma py_round_between (x : R) (z : Z) :
  IZR z - 1 / 2 < x < IZR z + 1 / 2 -> py_round x = z.
Proof.
  intros H. unfold py_round.
  destruct (Rle_dec (IZR z) x) as [Hle|Hgt].
  - rewrite (Int_part_eq x z) by lra.
    destruct (Rlt_dec (x - IZR z) (1 / 2)); [reflexivity|lra].
  - assert (Hi : Int_part x = (z - 1)%Z).
    { apply Int_part_eq. rewrite minus_IZR. lra. }
    rewrite Hi, minus_IZR.
    destruct (Rlt_dec (x - (IZR z - 1)) (1 / 2)); [lra|].
    destruct (Rlt_dec (1 / 2) (x - (IZR z - 1))); [f_equal; lia|lra].
Qed.

(* ================================================================== *)
(** * Values of the module-level parameters *)
(* ================================================================== *)

Lemma days_before_lockdown_value : days_before_lockdown = 60%Z.
Proof. reflexivity. Qed.

Lemma sigma_value : sigma = 10 / 27.
Proof. unfold sigma, days_to_incubation, days_presymptomatic. lra. Qed.

Lemma gamma_value : gamma = 5 / 19.
Proof. unfold gamma, generation_time. rewrite sigma_value. lra. Qed.

Lemma timeInfected_value : timeInfected = 3.8.
Proof. unfold timeInfected. rewrite gamma_value. lra. Qed.

(** [round(2.5)] is [2]: the tie goes to the even neighbour.  The script
    defines this lag and then passes [days_presymptomatic] itself to every
    delay. *)
Lemma presymptomaticLag_value : presymptomaticLag = 2%Z.
Proof.
  unfold presymptomaticLag, py_round, days_presymptomatic.
  rewrite (Int_part_eq 2.5 2) by lra.
  destruct (Rlt_dec (2.5 - 2) (1 / 2)); [lra|].
  destruct (Rlt_dec (1 / 2) (2.5 - 2)); [lra|]. reflexivity.
Qed.

Lemma U_correction_value : U_correction = 8%Z.
Proof.
  unfold U_correction. rewrite timeInfected_value. unfold timeInHospital.
  apply py_round_between. lra.
Qed.

Lemma ln_math_e : ln math_e = 1.
Proof. unfold math_e. apply ln_exp. Qed.

Lemma s1_positive : 0 < s1.
Proof.
  unfold s1, r0. rewrite sigma_value, gamma_value.
  set (a := 10 / 27 + 5 / 19).
  assert (Ha : 0 < a) by (unfold a; lra).
  assert (Hlt : a < sqrt (a ^ 2 + 4 * (10 / 27) * (5 / 19) * (3.0 - 1))).
  { rewrite <- (sqrt_pow2 a) at 1 by lra. apply sqrt_lt_1; nra. }
  lra.
Qed.

(* ================================================================== *)
(** * The model *)
(* ================================================================== *)

(** C2.  [model] returns the SEIR derivative
    [(-b*S*I/N, b*S*I/N - sigma*E, sigma*E - gamma*I, gamma*I)], where the
    transmission rate [b] is [beta0] on days before [days0] and [beta1] from
    [days0] on; at [x = days0] itself it is [beta1]. *)
Theorem model_derivative (S_ E_ I_ R_ x N beta0 days0 beta1 gamma sigma : R) :
  let rhs (b : R) : state :=
    (- (b * S_ * I_ / N), b * S_ * I_ / N - sigma * E_,
     sigma * E_ - gamma * I_, gamma * I_) in
  ((x < days0 /\
    model (S_, E_, I_, R_) x N beta0 days0 beta1 gamma sigma = rhs beta0)
   \/
   (days0 <= x /\
    model (S_, E_, I_, R_) x N beta0 days0 beta1 gamma sigma = rhs beta1))
  /\ model (S_, E_, I_, R_) days0 N beta0 days0 beta1 gamma sigma = rhs beta1.
Proof.
  intros rhs. unfold model, rhs. split.
  - destruct (Rlt_dec x days0) as [Hlt|Hge].
    + left. split; [assumption|]. repeat f_equal. unfold Rdiv. ring.
    + right. split; [lra|]. repeat f_equal. unfold Rdiv. ring.
  - destruct (Rlt_dec days0 days0) as [Hlt|Hge]; [lra|].
    repeat f_equal. unfold Rdiv. ring.
Qed.

Lemma sum4_model (Y : state) (x N b0 d0 b1 g s : R) :
  sum4 (model Y x N b0 d0 b1 g s) = 0.
Proof.
  destruct Y as [[[S_ E_] I_] R_]. unfold model, sum4.
  destruct (Rlt_dec x d0); unfold Rdiv; ring.
Qed.

(** A function that is continuous on [[a, b]] and has derivative zero inside
    takes the same value at both ends. *)
Lemma flat_between (f : R -> R) (a b : R) :
  a <= b ->
  (forall x, a <= x <= b -> continuity_pt f x) ->
  (forall x, a < x < b -> derivable_pt_lim f x 0) ->
  f b = f a.
Proof.
  intros Hab Hc Hd.
  pose (pr := fun (x : R) (P : a < x < b) =>
                exist (fun l => derivable_pt_lim f x l) 0 (Hd x P)
                : derivable_pt f x).
  assert (K : constant_D_eq f (fun x => a <= x <= b) (f a)).
  { apply (null_derivative_loc f a b pr Hc). intros x P. reflexivity. }
  apply K. lra.
Qed.

Section Path.

Variables (s e i r : R -> R) (T N b0 d0 b1 g sg : R).
Hypothesis Hsol : exact_solution s e i r T N b0 d0 b1 g sg.

Lemma path_sum_continuous (t : R) :
  0 <= t <= T -> continuity_pt (path_sum s e i r) t.
Proof.
  intros Ht. destruct Hsol as [Hc _].
  destruct (Hc t Ht) as (cs & ce & ci & cr).
  unfold path_sum. repeat apply continuity_pt_plus; assumption.
Qed.

Lemma path_sum_flat (t : R) :
  0 < t < T -> t <> d0 -> derivable_pt_lim (path_sum s e i r) t 0.
Proof.
  intros Ht Hne. destruct Hsol as [_ Hd].
  destruct (Hd t Ht Hne) as (ds & de & di & dr).
  pose proof (sum4_model (s t, e t, i t, r t) t N b0 d0 b1 g sg) as Hz.
  set (d := model (s t, e t, i t, r t) t N b0 d0 b1 g sg) in *.
  assert (Hsum : dS_of d + dE_of d + dI_of d + dR_of d = 0).
  { rewrite <- Hz. destruct d as [[[a b] c] d']. reflexivity. }
  rewrite <- Hsum. unfold path_sum.
  repeat apply derivable_pt_lim_plus; assumption.
Qed.

(** On a stretch that does not contain the switch day in its interior. *)
Lemma path_sum_piece (a b : R) :
  0 <= a -> a <= b -> b <= T -> (d0 <= a \/ b <= d0) ->
  path_sum s e i r b = path_sum s e i r a.
Proof.
  intros Ha Hab Hb Hside. apply flat_between; [assumption| |].
  - intros x Hx. apply path_sum_continuous. lra.
  - intros x Hx. apply path_sum_flat; lra.
Qed.

Lemma path_sum_constant (t : R) :
  0 <= t <= T -> s t + e t + i t + r t = s 0 + e 0 + i 0 + r 0.
Proof.
  intros Ht. change (path_sum s e i r t = path_sum s e i r 0).
  destruct (Rle_dec t d0) as [Hle|Hgt].
  - apply path_sum_piece; lra.
  - destruct (Rle_dec d0 0) as [Hd|Hd].
    + apply path_sum_piece; lra.
    + transitivity (path_sum s e i r d0); apply path_sum_piece; lra.
Qed.

End Path.

(* ================================================================== *)
(** * Arrays and the solver call *)
(* ================================================================== *)

Lemma length_arange (n : nat) : length (arange n) = n.
Proof. unfold arange. now rewrite length_map, length_seq. Qed.

Lemma nth_map_inside {A B : Type} (f : A -> B) (l : list A) (i : nat) (d : B) (d' : A) :
  (i < length l)%nat -> nth i (map f l) d = f (nth i l d').
Proof.
  revert i. induction l as [|a l IH]; intros [|i] H; simpl in *; try lia; auto.
  apply IH. lia.
Qed.

Lemma nth_arange (n i : nat) : (i < n)%nat -> nth i (arange n) 0%Z = Z.of_nat i.
Proof.
  intros H. unfold arange.
  rewrite (nth_map_inside _ _ _ _ 0%nat) by now rewrite length_seq.
  now rewrite seq_nth.
Qed.

Lemma length_columns (y : list state) :
  length (col_S y) = length y /\ length (col_E y) = length y /\
  length (col_I y) = length y /\ length (col_R y) = length y.
Proof. unfold col_S, col_E, col_I, col_R. now rewrite !length_map. Qed.

Lemma nth_columns (y : list state) (k : nat) :
  (nth k (col_S y) 0, nth k (col_E y) 0, nth k (col_I y) 0, nth k (col_R y) 0)
  = nth k y (0, 0, 0, 0).
Proof.
  revert k. induction y as [|[[[a b] c] d] y IH]; intros [|k]; simpl; auto.
Qed.

Lemma solve_unfold (daysTotal : nat) (odeint : odeint_fn) (m : model_fn)
    (N E0 b0 d0 b1 g s : R) :
  solve daysTotal odeint m N E0 b0 d0 b1 g s =
  match odeint (fun Y x => m Y x N b0 d0 b1 g s) (N - E0, E0, 0, 0)
               (map IZR (arange daysTotal)) with
  | Returns run =>
      Returns {| tX := arange daysTotal;
                 tS := col_S (y_data run); tE := col_E (y_data run);
                 tI := col_I (y_data run); tR := col_R (y_data run) |}
  | Raises e => Raises e
  end.
Proof. unfold solve, bind. reflexivity. Qed.

(* ================================================================== *)
(** * Conservation of the population *)
(* ================================================================== *)

Lemma state_ext (a b c d a' b' c' d' : R) :
  a = a' -> b = b' -> c = c' -> d = d' -> (a, b, c, d) = (a', b', c', d').
Proof. congruence. Qed.

Lemma abs_le_bounds (x a : R) : Rabs x <= a -> - a <= x <= a.
Proof. unfold Rabs. destruct (Rcase_abs x); lra. Qed.

Lemma close_sum (tol : R) (Y Z : state) :
  close_to tol Y Z -> Rabs (sum4 Y - sum4 Z) <= 4 * tol.
Proof.
  destruct Y as [[[a b] c] d], Z as [[[a' b'] c'] d'].
  intros (Ha & Hb & Hc & Hd). unfold sum4.
  apply abs_le_bounds in Ha. apply abs_le_bounds in Hb.
  apply abs_le_bounds in Hc. apply abs_le_bounds in Hd.
  apply Rabs_le. lra.
Qed.

Lemma decay_derivative (c t : R) :
  derivable_pt_lim (fun u => exp (- c * u)) t (- c * exp (- c * t)).
Proof.
  assert (H1 : derivable_pt_lim (fun u => - c * u) t (- c)).
  { pose proof (derivable_pt_lim_scal id (- c) t 1 (derivable_pt_lim_id t)) as H.
    rewrite Rmult_1_r in H. exact H. }
  pose proof (derivable_pt_lim_comp (fun u => - c * u) exp t (- c)
                (exp (- c * t)) H1 (derivable_pt_lim_exp (- c * t))) as H.
  rewrite Rmult_comm in H. exact H.
Qed.

Lemma iso_E_derivative (t : R) :
  derivable_pt_lim Standin.iso_E t (- sigma * Standin.iso_E t).
Proof. apply decay_derivative. Qed.

Lemma iso_I_derivative (t : R) :
  derivable_pt_lim Standin.iso_I t (sigma * Standin.iso_E t - gamma * Standin.iso_I t).
Proof.
  assert (Hne : gamma - sigma <> 0) by (rewrite gamma_value, sigma_value; lra).
  pose proof (derivable_pt_lim_minus _ _ t _ _
                (decay_derivative sigma t) (decay_derivative gamma t)) as Hd.
  pose proof (derivable_pt_lim_scal _ (sigma / (gamma - sigma)) t _ Hd) as H.
  replace (sigma * Standin.iso_E t - gamma * Standin.iso_I t)
    with (sigma / (gamma - sigma)
          * (- sigma * exp (- sigma * t) - - gamma * exp (- gamma * t))).
  - exact H.
  - unfold Standin.iso_E, Standin.iso_I. field. exact Hne.
Qed.

Lemma iso_R_derivative (t : R) :
  derivable_pt_lim Standin.iso_R t (gamma * Standin.iso_I t).
Proof.
  pose proof (derivable_pt_lim_minus _ _ t _ _
                (derivable_pt_lim_minus _ _ t _ _
                   (derivable_pt_lim_const 1 t) (iso_E_derivative t))
                (iso_I_derivative t)) as H.
  replace (gamma * Standin.iso_I t)
    with (0 - - sigma * Standin.iso_E t - (sigma * Standin.iso_E t - gamma * Standin.iso_I t)) by ring.
  exact H.
Qed.

Lemma derivable_continuous_at (f : R -> R) (t l : R) :
  derivable_pt_lim f t l -> continuity_pt f t.
Proof.
  intros H. apply derivable_continuous_pt. exists l. exact H.
Qed.

Lemma isolated_is_exact (T N d0 : R) :
  exact_solution (Standin.iso_S N) Standin.iso_E Standin.iso_I Standin.iso_R T N 0 d0 0 gamma sigma.
Proof.
  split.
  - intros t _. repeat split.
    + apply (derivable_continuous_at _ _ 0). apply derivable_pt_lim_const.
    + apply (derivable_continuous_at _ _ _ (iso_E_derivative t)).
    + apply (derivable_continuous_at _ _ _ (iso_I_derivative t)).
    + apply (derivable_continuous_at _ _ _ (iso_R_derivative t)).
  - intros t _ _. cbv zeta. unfold model.
    destruct (Rlt_dec t d0); cbn [dS_of dE_of dI_of dR_of]; repeat split.
    all: try (replace (- 0 * Standin.iso_S N t * Standin.iso_I t / N) with 0
                by (unfold Rdiv; ring); apply derivable_pt_lim_const).
    all: try (replace (0 * Standin.iso_S N t * Standin.iso_I t / N - sigma * Standin.iso_E t)
                with (- sigma * Standin.iso_E t) by (unfold Rdiv; ring);
              apply iso_E_derivative).
    all: try apply iso_I_derivative.
    all: apply iso_R_derivative.
Qed.



(* ================================================================== *)
(** * The integration step *)
(* ================================================================== *)

(** C5.  For a grid of [daysTotal >= 1] days, [solve] hands [odeint] the
    model, the initial state [(N - E0, E0, 0, 0)] and the times
    [0, 1, ..., daysTotal - 1]; when that call returns one row per requested
    time, [solve] returns the day grid and four sequences [S, E, I, R] of
    length exactly [daysTotal], whose entries on day [k] are the solver's
    row [k]. *)
Theorem solve_lengths (daysTotal : nat) (odeint : odeint_fn)
    (N E0 b0 d0 b1 g sg : R) (run : odeint_run) :
  (1 <= daysTotal)%nat ->
  odeint (fun Y x => model Y x N b0 d0 b1 g sg) (N - E0, E0, 0, 0)
         (map IZR (arange daysTotal)) = Returns run ->
  length (y_data run) = length (map IZR (arange daysTotal)) ->
  exists t,
    solve daysTotal odeint model N E0 b0 d0 b1 g sg = Returns t /\
    length (tX t) = daysTotal /\
    (forall k, (k < daysTotal)%nat -> nth k (tX t) 0%Z = Z.of_nat k) /\
    length (tS t) = daysTotal /\ length (tE t) = daysTotal /\
    length (tI t) = daysTotal /\ length (tR t) = daysTotal /\
    (forall k, (nth k (tS t) 0, nth k (tE t) 0, nth k (tI t) 0, nth k (tR t) 0)
               = nth k (y_data run) (0, 0, 0, 0)).
Proof.
  intros _ Hrun Hlen.
  rewrite length_map, length_arange in Hlen.
  rewrite solve_unfold, Hrun. eexists. split; [reflexivity|].
  cbn [tX tS tE tI tR].
  destruct (length_columns (y_data run)) as (HS & HE & HI & HR).
  rewrite HS, HE, HI, HR, length_arange.
  repeat split; try assumption.
  - intros k Hk. now apply nth_arange.
  - intros k. apply nth_columns.
Qed.

Lemma solve_lengths_witness :
  exists t,
    solve 3 Standin.euler model population E0 beta0 days_before_lockdown
          beta1 gamma sigma = Returns t /\
    length (tX t) = 3%nat /\
    (forall k, (k < 3)%nat -> nth k (tX t) 0%Z = Z.of_nat k) /\
    length (tS t) = 3%nat /\ length (tE t) = 3%nat /\
    length (tI t) = 3%nat /\ length (tR t) = 3%nat /\
    (forall k, (nth k (tS t) 0, nth k (tE t) 0, nth k (tI t) 0, nth k (tR t) 0)
               = nth k
                   ((IZR population - IZR E0, IZR E0, 0, 0)
                    :: Standin.euler_rows
                         (fun Y x => model Y x population beta0
                                       days_before_lockdown beta1 gamma sigma)
                         (IZR population - IZR E0, IZR E0, 0, 0) 0 [IZR 1; IZR 2])
                   (0, 0, 0, 0)).
Proof.
  apply (solve_lengths 3 Standin.euler population E0 beta0 days_before_lockdown
           beta1 gamma sigma
           {| y_data :=
                (IZR population - IZR E0, IZR E0, 0, 0)
                :: Standin.euler_rows
                     (fun Y x => model Y x population beta0
                                   days_before_lockdown beta1 gamma sigma)
                     (IZR population - IZR E0, IZR E0, 0, 0) 0 [IZR 1; IZR 2];
              converged := true |}).
  - lia.
  - reflexivity.
  - reflexivity.
Defined.

(** C4 (as the code has it).  [solve] makes no convergence or finiteness
    check of its own: whenever the solver call returns an array, [solve]
    returns the columns of that array whatever the solver reports about
    convergence, and [solve] raises only what the solver call itself
    raises. *)
Theorem solve_passes_through (daysTotal : nat) (odeint : odeint_fn)
    (m : model_fn) (N E0 b0 d0 b1 g sg : R) :
  match odeint (fun Y x => m Y x N b0 d0 b1 g sg) (N - E0, E0, 0, 0)
               (map IZR (arange daysTotal)) with
  | Returns run =>
      solve daysTotal odeint m N E0 b0 d0 b1 g sg =
      Returns {| tX := arange daysTotal;
                 tS := col_S (y_data run); tE := col_E (y_data run);
                 tI := col_I (y_data run); tR := col_R (y_data run) |}
  | Raises e => solve daysTotal odeint m N E0 b0 d0 b1 g sg = Raises e
  end.
Proof.
  rewrite solve_unfold.
  destruct (odeint _ _ _) as [run|e]; reflexivity.
Qed.

(** C4 as stated fails: with a solver that stops after the first row and
    flags the run as not converged, [solve] returns the zero-filled arrays
    as an ordinary result. *)
Lemma solve_hides_failure :
  ~ surfaces_failure 3 Standin.stalled /\
  solve 3 Standin.stalled model population E0 beta0 days_before_lockdown
        beta1 gamma sigma
  = Returns {| tX := [0%Z; 1%Z; 2%Z];
               tS := [IZR population - IZR E0; 0; 0];
               tE := [IZR E0; 0; 0];
               tI := [0; 0; 0];
               tR := [0; 0; 0] |}.
Proof.
  split; [|reflexivity].
  intros H.
  destruct (H model population E0 beta0 days_before_lockdown beta1 gamma sigma
              {| y_data := [(IZR population - IZR E0, IZR E0, 0, 0);
                            (0, 0, 0, 0); (0, 0, 0, 0)];
                 converged := false |})
    as [e He]; [reflexivity|reflexivity|].
  discriminate He.
Qed.

(* ================================================================== *)
(** * Derived series *)
(* ================================================================== *)

Lemma nth_scaled (c : R -> R) (l : list R) (i : nat) :
  c 0 = 0 -> nth i (map c l) 0 = c (nth i l 0).
Proof. intros H. rewrite <- H at 1. apply map_nth. Qed.

(** C6.  The detected-cases series is [delay] applied to the series
    [I[i] * percent_cases_detected], with the lag
    [days_presymptomatic + symptomToHospitalLag + testLag + communicationLag]
    (12.5 days with the script's values; the presymptomatic term is the
    unrounded [days_presymptomatic]). *)
Theorem detected_cases (delay : list R -> R -> list R) (I_ : list R) :
  F delay I_ = delay (F_raw I_) F_lag /\
  length (F_raw I_) = length I_ /\
  (forall i, nth i (F_raw I_) 0 = nth i I_ 0 * percent_cases_detected) /\
  F_lag = days_presymptomatic + IZR symptomToHospitalLag + IZR testLag
          + IZR communicationLag /\
  F_lag = 12.5 /\
  percent_cases_detected = 0.0325.
Proof.
  repeat split.
  - unfold F_raw. apply length_map.
  - intros i. unfold F_raw.
    apply (nth_scaled (fun v => v * percent_cases_detected)). ring.
  - unfold F_lag, days_presymptomatic, symptomToHospitalLag, testLag,
      communicationLag. lra.
  - unfold percent_cases_detected, percent_asymptomatic. lra.
Qed.

(** C7.  The ICU series is the series
    [I[i] * icuRate * (timeInHospital / timeInfected)], delayed by
    [days_presymptomatic + symptomToHospitalLag + hospitalToIcuLag] and then
    delayed again by
    [round((timeInHospital / timeInfected - 1) * timeInfected)] days
    (12.5 and 8 with the script's values). *)
Theorem icu_load (delay : list R -> R -> list R) (I_ : list R) :
  U delay I_ = delay (delay (U_raw I_) U_lag) (IZR U_correction) /\
  length (U_raw I_) = length I_ /\
  (forall i, nth i (U_raw I_) 0
             = nth i I_ 0 * icuRate * (IZR timeInHospital / timeInfected)) /\
  U_lag = days_presymptomatic + IZR symptomToHospitalLag + IZR hospitalToIcuLag /\
  U_lag = 12.5 /\
  U_correction = py_round ((IZR timeInHospital / timeInfected - 1) * timeInfected) /\
  U_correction = 8%Z.
Proof.
  repeat split.
  - unfold U_raw. apply length_map.
  - intros i. unfold U_raw.
    rewrite (nth_scaled (fun v => v * icuRate * timeInHospital / timeInfected))
      by (unfold Rdiv; ring).
    unfold Rdiv. ring.
  - unfold U_lag, days_presymptomatic, symptomToHospitalLag, hospitalToIcuLag. lra.
  - apply U_correction_value.
Qed.

Lemma length_cumsum_from (acc : R) (l : list R) :
  length (cumsum_from acc l) = length l.
Proof. revert acc. induction l; intros; simpl; auto. Qed.

Lemma nth_cumsum_from (l : list R) (acc : R) (i : nat) :
  (i < length l)%nat ->
  nth i (cumsum_from acc l) 0 = acc + total (firstn (S i) l).
Proof.
  revert acc i. induction l as [|v l IH]; intros acc i H; simpl in H; [lia|].
  destruct i as [|i].
  - simpl. destruct l; simpl; lra.
  - cbn [cumsum_from nth]. rewrite IH by lia.
    change (firstn (S (S i)) (v :: l)) with (v :: firstn (S i) l).
    cbn [total fold_right]. unfold total. lra.
Qed.

Lemma cumsum_from_step (l : list R) (acc : R) (i : nat) :
  (S i < length l)%nat ->
  nth (S i) (cumsum_from acc l) 0 = nth i (cumsum_from acc l) 0 + nth (S i) l 0.
Proof.
  revert acc i. induction l as [|v l IH]; intros acc i H; simpl in H; [lia|].
  destruct i as [|i].
  - destruct l as [|w l]; simpl in *; [lia|reflexivity].
  - cbn [cumsum_from nth]. apply IH. lia.
Qed.

Lemma cumsum_from_mono (l : list R) (acc : R) (i j : nat) :
  Forall (fun v => 0 <= v) l -> (i <= j)%nat -> (j < length l)%nat ->
  nth i (cumsum_from acc l) 0 <= nth j (cumsum_from acc l) 0.
Proof.
  intros Hpos Hij Hj. induction Hij as [|j Hij IH].
  - lra.
  - rewrite cumsum_from_step by assumption.
    assert (0 <= nth (S j) l 0).
    { rewrite Forall_forall in Hpos. apply Hpos. apply nth_In. assumption. }
    specialize (IH ltac:(lia)). lra.
Qed.

(** C8.  [FC] has one entry per entry of the detected-cases series [F];
    entry [i] is the sum of [F[0..i]]; and when no entry of [F] is negative,
    [FC] is non-decreasing. *)
Theorem cumulative_cases (delay : list R -> R -> list R) (I_ : list R) :
  length (FC delay I_) = length (F delay I_) /\
  (forall i, (i < length (F delay I_))%nat ->
     nth i (FC delay I_) 0 = total (firstn (S i) (F delay I_))) /\
  (Forall (fun v => 0 <= v) (F delay I_) ->
   forall i j, (i <= j)%nat -> (j < length (F delay I_))%nat ->
     nth i (FC delay I_) 0 <= nth j (FC delay I_) 0).
Proof.
  unfold FC, cumsum. repeat split.
  - apply length_cumsum_from.
  - intros i Hi. rewrite nth_cumsum_from by assumption. ring.
  - intros Hpos i j Hij Hj. now apply cumsum_from_mono.
Qed.

Lemma cumulative_cases_witness :
  nth 1 (FC Standin.unshifted [1000; 2000; 4000]) 0
  = total (firstn 2 (F Standin.unshifted [1000; 2000; 4000])) /\
  nth 0 (FC Standin.unshifted [1000; 2000; 4000]) 0
  <= nth 2 (FC Standin.unshifted [1000; 2000; 4000]) 0.
Proof.
  destruct (cumulative_cases Standin.unshifted [1000; 2000; 4000])
    as (_ & Hsum & Hmono).
  split.
  - apply Hsum. simpl. lia.
  - apply Hmono.
    + unfold F, Standin.unshifted, F_raw, percent_cases_detected,
        percent_asymptomatic.
      repeat constructor; lra.
    + lia.
    + simpl. lia.
Defined.

(* ================================================================== *)
(** * Summary scalars *)
(* ================================================================== *)

(** C9.  [sigma = 1/(days_to_incubation - days_presymptomatic)], so that
    [1/sigma = 2.7]; [gamma = 1/(2*(generation_time - 1/sigma))] with
    [generation_time = 4.6]; [beta0 = r0*gamma], [beta1 = r1*gamma];
    [doublingTime = ln 2 / s1] with
    [s1 = 0.5*(-(sigma+gamma) + sqrt((sigma+gamma)^2 + 4*sigma*gamma*(r0-1)))]. *)
Theorem summary_scalars :
  sigma = 1 / (days_to_incubation - days_presymptomatic) /\
  1 / sigma = 2.7 /\
  generation_time = 4.6 /\
  gamma = 1 / (2 * (generation_time - 1 / sigma)) /\
  beta0 = r0 * gamma /\
  beta1 = r1 * gamma /\
  doublingTime = ln 2 / s1 /\
  s1 = 0.5 * (- (sigma + gamma)
              + sqrt ((sigma + gamma) ^ 2 + 4 * sigma * gamma * (r0 - 1))) /\
  0 < s1.
Proof.
  split; [unfold sigma; lra|].
  split; [rewrite sigma_value; lra|].
  split; [reflexivity|].
  split.
  { unfold gamma. replace 1.0 with 1 by lra. replace 2.0 with 2 by lra.
    reflexivity. }
  split; [reflexivity|].
  split; [reflexivity|].
  split.
  { unfold doublingTime, math_log. rewrite ln_math_e.
    replace 2.0 with 2 by lra. unfold Rdiv. rewrite Rinv_1. ring. }
  split; [reflexivity|apply s1_positive].
Qed.

(* ================================================================== *)
(** * The deaths loop *)
(* ================================================================== *)

Section Lists.

Context {A : Type}.

Lemma length_update (l : list A) (i : nat) (v : A) :
  length (update l i v) = length l.
Proof.
  revert i. induction l as [|a l IH]; intros [|i]; simpl; auto.
Qed.

Lemma nth_update_same (l : list A) (i : nat) (v d : A) :
  (i < length l)%nat -> nth i (update l i v) d = v.
Proof.
  revert i. induction l as [|a l IH]; intros [|i] H; simpl in *; try lia; auto.
  apply IH. lia.
Qed.

Lemma nth_update_other (l : list A) (i j : nat) (v d : A) :
  i <> j -> nth j (update l i v) d = nth j l d.
Proof.
  revert i j. induction l as [|a l IH]; intros [|i] [|j] H; simpl; auto; try lia.
Qed.

Lemma getitem_nth (l : list A) (i : nat) (d : A) :
  (i < length l)%nat -> getitem l i = Returns (nth i l d).
Proof.
  intros H. unfold getitem.
  destruct (nth_error l i) as [v|] eqn:E.
  - now rewrite (nth_error_nth _ _ d E).
  - apply nth_error_None in E. lia.
Qed.

Lemma setitem_inside (l : list A) (i : nat) (v : A) :
  (i < length l)%nat -> setitem l i v = Returns (update l i v).
Proof.
  intros H. unfold setitem. apply Nat.ltb_lt in H. now rewrite H.
Qed.

End Lists.

Lemma IFR_of_within (u : R) :
  u <= intensive_units -> IFR_of u = infectionFatalityRateA.
Proof.
  intros H. unfold IFR_of.
  destruct (Rle_dec u intensive_units); [reflexivity|contradiction].
Qed.

Lemma IFR_of_beyond (u : R) :
  intensive_units < u -> IFR_of u = infectionFatalityRateB.
Proof.
  intros H. unfold IFR_of.
  destruct (Rle_dec u intensive_units); [lra|reflexivity].
Qed.

Lemma IFR_of_zero : IFR_of 0 = 0.01.
Proof. rewrite IFR_of_within; [reflexivity|unfold intensive_units; lra]. Qed.

Lemma D_lag_value : D_lag = 17.7.
Proof.
  unfold D_lag. rewrite timeInfected_value.
  unfold days_presymptomatic, symptomToHospitalLag, timeInHospital,
    communicationLag. lra.
Qed.

Section DeathsLoop.

Variables (n : nat) (U_ R_ : list R).
Hypothesis HU : (n <= length U_)%nat.
Hypothesis HR : (n <= length R_)%nat.

Lemma prev_Z_update (D : list Z) (i k : nat) (v : Z) :
  (i <= k)%nat -> prev_Z (update D k v) i = prev_Z D i.
Proof.
  intros H. destruct i as [|j]; simpl; [reflexivity|].
  apply nth_update_other. lia.
Qed.

(** One iteration keeps the invariant and moves it one day on. *)
Lemma deaths_body_step (k : nat) (st : loop_state) :
  (k < n)%nat -> loop_inv n U_ R_ k st ->
  exists st', deaths_body U_ R_ st k = Returns st'
              /\ loop_inv n U_ R_ (S k) st'.
Proof.
  intros Hk (Hlen & HRp & HDp & Hrec).
  set (v := trunc (IZR (DPrev st)
                   + IFR_of (nth k U_ 0) * (nth k R_ 0 - RPrev st))).
  exists {| D_arr := update (D_arr st) k v; RPrev := nth k R_ 0; DPrev := v |}.
  split.
  - unfold deaths_body.
    rewrite (getitem_nth U_ k 0) by lia. simpl.
    rewrite (getitem_nth R_ k 0) by lia. simpl.
    rewrite setitem_inside by lia. simpl.
    rewrite (getitem_nth (update _ _ _) k 0%Z) by (rewrite length_update; lia).
    simpl. rewrite nth_update_same by lia. reflexivity.
  - unfold loop_inv; simpl. repeat split.
    + now rewrite length_update.
    + now rewrite nth_update_same by lia.
    + intros i Hi. unfold stored. rewrite prev_Z_update by lia.
      destruct (Nat.eq_dec i k) as [->|Hne].
      * rewrite nth_update_same by lia. unfold v. now rewrite HDp, HRp.
      * rewrite nth_update_other by lia. apply Hrec. lia.
Qed.

Lemma for_each_deaths (m k : nat) (st : loop_state) :
  (k + m = n)%nat -> loop_inv n U_ R_ k st ->
  exists st', for_each (deaths_body U_ R_) st (seq k m) = Returns st'
              /\ loop_inv n U_ R_ n st'.
Proof.
  revert k st. induction m as [|m IH]; intros k st Hkm Hinv.
  - exists st. split; [reflexivity|].
    assert (Hk : k = n) by lia. now rewrite <- Hk at 2.
  - destruct (deaths_body_step k st) as (st1 & Hb & Hinv1); [lia|assumption|].
    destruct (IH (S k) st1) as (st' & Hf & Hinv'); [lia|assumption|].
    exists st'. split; [|assumption]. simpl. now rewrite Hb.
Qed.

Lemma deaths_loop_returns (X : list Z) :
  length X = n ->
  exists D, deaths_loop n X U_ R_ = Returns D /\ length D = n /\
            forall i, (i < n)%nat -> nth i D 0%Z = stored U_ R_ D i.
Proof.
  intros HX. unfold deaths_loop. rewrite HX.
  destruct (for_each_deaths n 0
              {| D_arr := arange n; RPrev := 0; DPrev := 0 |})
    as (st & Hf & Hlen & _ & _ & Hrec).
  - lia.
  - unfold loop_inv; simpl. rewrite length_arange.
    repeat split. intros i Hi; lia.
  - exists (D_arr st). rewrite Hf. simpl. auto.
Qed.

(** The stored series stays within [i + 1] of the recurrence on reals. *)
Lemma deaths_gap (D : list Z) :
  (forall i, (i < n)%nat -> nth i D 0%Z = stored U_ R_ D i) ->
  forall i, (i < n)%nat ->
    Rabs (IZR (nth i D 0%Z) - Deaths_exact U_ R_ i) < INR (S i).
Proof.
  intros Hrec i. induction i as [|i IH]; intros Hi.
  - rewrite Hrec by assumption. unfold stored. simpl.
    pose proof (trunc_close (0 + IFR_of (nth 0 U_ 0) * (nth 0 R_ 0 - 0))) as Hc.
    apply Rabs_def2 in Hc. apply Rabs_def1; lra.
  - specialize (IH ltac:(lia)). rewrite Hrec by assumption.
    unfold stored. cbn [prev_Z prev_R Deaths_exact].
    set (inc := IFR_of (nth (S i) U_ 0) * (nth (S i) R_ 0 - nth i R_ 0)).
    pose proof (trunc_close (IZR (nth i D 0%Z) + inc)) as Hc.
    rewrite (S_INR (S i)).
    apply Rabs_def2 in Hc. apply Rabs_def2 in IH. apply Rabs_def1; lra.
Qed.

End DeathsLoop.

(** The loop on three days with a daily increment of 0.9: nothing is ever
    stored, while the recurrence on reals reaches 2.7. *)
Lemma deaths_loop_three_days :
  deaths_loop 3 (arange 3) [0; 0; 0] [90; 180; 270] = Returns [0%Z; 0%Z; 0%Z]
  /\ Deaths_exact [0; 0; 0] [90; 180; 270] 2 = 2.7.
Proof.
  split.
  - unfold deaths_loop. cbn -[trunc IFR_of Rmult Rplus Rminus IZR].
    rewrite !IFR_of_zero.
    rewrite (trunc_eq (0 + _) 0) by (lia || lra).
    rewrite (trunc_eq (0 + _) 0) by (lia || lra).
    rewrite (trunc_eq (0 + _) 0) by (lia || lra). reflexivity.
  - simpl. rewrite !IFR_of_zero. lra.
Qed.

(** C10.  [D] is an integer array: the loop returns (given [daysTotal]
    entries of [U] and [R]) an array of [daysTotal] integers in which day
    [i] holds the truncation of [D[i-1] + IFR(i) * (R[i] - R[i-1])], built on
    the already truncated [D[i-1]]; each day is therefore within one of its
    untruncated value, and the series is within [i + 1] of the recurrence on
    reals.  The loss adds up over the days: with a daily increment of 0.9
    the array still holds 0 on the third day, where the recurrence on reals
    gives 2.7. *)
Theorem deaths_truncated :
  (forall (daysTotal : nat) (X : list Z) (U_ R_ : list R),
     length X = daysTotal ->
     (daysTotal <= length U_)%nat -> (daysTotal <= length R_)%nat ->
     exists D : list Z,
       deaths_loop daysTotal X U_ R_ = Returns D /\ length D = daysTotal /\
       forall i, (i < daysTotal)%nat ->
         let exact_step :=
           IZR (prev_Z D i) + IFR_of (nth i U_ 0) * (nth i R_ 0 - prev_R R_ i) in
         nth i D 0%Z = trunc exact_step /\
         Rabs (IZR (nth i D 0%Z) - exact_step) < 1 /\
         Rabs (IZR (nth i D 0%Z) - Deaths_exact U_ R_ i) < INR (S i))
  /\
  (deaths_loop 3 (arange 3) [0; 0; 0] [90; 180; 270] = Returns [0%Z; 0%Z; 0%Z]
   /\ Deaths_exact [0; 0; 0] [90; 180; 270] 2 = 2.7).
Proof.
  split; [|exact deaths_loop_three_days].
  intros n X U_ R_ HX HU HR.
  destruct (deaths_loop_returns n U_ R_ HU HR X HX) as (D & Hret & Hlen & Hrec).
  exists D. repeat split; try assumption.
  - rewrite (Hrec i) by assumption. reflexivity.
  - rewrite (Hrec i) at 1 by assumption. apply trunc_close.
  - now apply (deaths_gap n U_ R_ HU HR D Hrec).
Qed.

Lemma deaths_truncated_witness :
  exists D : list Z,
    deaths_loop 2 [0%Z; 1%Z] [0; 0] [0; 150] = Returns D /\ length D = 2%nat /\
    forall i, (i < 2)%nat ->
      let exact_step :=
        IZR (prev_Z D i)
        + IFR_of (nth i [0; 0] 0) * (nth i [0; 150] 0 - prev_R [0; 150] i) in
      nth i D 0%Z = trunc exact_step /\
      Rabs (IZR (nth i D 0%Z) - exact_step) < 1 /\
      Rabs (IZR (nth i D 0%Z) - Deaths_exact [0; 0] [0; 150] i) < INR (S i).
Proof.
  apply (proj1 deaths_truncated 2%nat [0%Z; 1%Z] [0; 0] [0; 150]).
  - reflexivity.
  - simpl. lia.
  - simpl. lia.
Defined.

(** C1 (where the code departs from it).  On two days with [R = [0, 150]]
    and an idle ICU, the loop stores [D = [0, 1]], whereas
    [Deaths[0] + IFR(1) * (R[1] - R[0])] is [1.5]: the recurrence does not
    hold for the stored series.  The rate is chosen from the delayed ICU
    series and the result is delayed by
    [- timeInfected + days_presymptomatic + symptomToHospitalLag
     + timeInHospital + communicationLag] (17.7 days), as stated. *)
Theorem deaths_recurrence_broken :
  deaths_loop 2 (arange 2) [0; 0] [0; 150] = Returns [0%Z; 1%Z] /\
  IZR 0 + IFR_of 0 * (150 - 0) = 1.5 /\
  Deaths_exact [0; 0] [0; 150] 1 = 1.5 /\
  IZR 1 <> 1.5.
Proof.
  repeat split.
  - unfold deaths_loop. cbn -[trunc IFR_of Rmult Rplus Rminus IZR].
    rewrite !IFR_of_zero.
    rewrite (trunc_eq (0 + _) 0) by (lia || lra).
    rewrite (trunc_eq _ 1) by (lia || lra). reflexivity.
  - rewrite IFR_of_zero. lra.
  - simpl. rewrite !IFR_of_zero. lra.
  - lra.
Qed.

(** Lines 113-143 once [solve] has returned: the loop reads the twice
    delayed ICU series, and the integer array goes through [delay] with
    [D_lag]. *)
Lemma run_after_solve (daysTotal : nat) (odeint : odeint_fn)
    (delay : list R -> R -> list R) (t : trajectory) :
  solve daysTotal odeint model population E0 beta0 days_before_lockdown
        beta1 gamma sigma = Returns t ->
  run daysTotal odeint delay =
    match deaths_loop daysTotal (tX t)
            (delay (delay (U_raw (tI t)) U_lag) (IZR U_correction)) (tR t) with
    | Returns D =>
        Returns {| sX := tX t; sS := tS t; sE := tE t; sI := tI t; sR := tR t;
                   sF := F delay (tI t); sU := U delay (tI t);
                   sP := P (tI t); sFC := FC delay (tI t);
                   sD := delay (map IZR D) D_lag |}
    | Raises e => Raises e
    end.
Proof.
  intros Hs. unfold run. rewrite Hs. cbn [bind]. unfold U, D_delayed.
  destruct (deaths_loop _ _ _ _); reflexivity.
Qed.

(* ================================================================== *)
(** * Further properties of the model *)
(* ================================================================== *)

(** X1.  The model is scale-free: multiplying the four compartments and the
    population by the same non-zero factor multiplies the derivative by that
    factor. *)
Theorem model_scales (c S_ E_ I_ R_ x N b0 d0 b1 g sg : R) :
  c <> 0 -> N <> 0 ->
  model (scale_state c (S_, E_, I_, R_)) x (c * N) b0 d0 b1 g sg
  = scale_state c (model (S_, E_, I_, R_) x N b0 d0 b1 g sg).
Proof.
  intros Hc HN. unfold model, scale_state.
  destruct (Rlt_dec x d0); apply state_ext; field; auto.
Qed.

Lemma model_scales_witness :
  model (scale_state 2 (99, 1, 0, 0)) 0 (2 * 100) beta0 60 beta1 gamma sigma
  = scale_state 2 (model (99, 1, 0, 0) 0 100 beta0 60 beta1 gamma sigma).
Proof. apply model_scales; lra. Defined.

(** X2.  With a non-zero population and non-zero [gamma] and [sigma], the
    derivative vanishes exactly at the disease-free states: [model] returns
    [(0, 0, 0, 0)] if and only if [E = 0] and [I = 0], whatever [S], [R] and
    the day. *)
Theorem model_rest_iff (S_ E_ I_ R_ x N b0 d0 b1 g sg : R) :
  N <> 0 -> g <> 0 -> sg <> 0 ->
  (model (S_, E_, I_, R_) x N b0 d0 b1 g sg = (0, 0, 0, 0)
   <-> E_ = 0 /\ I_ = 0).
Proof.
  intros _ Hg Hs. split.
  - unfold model. intros H. injection H as _ _ HdI HdR.
    assert (HI : I_ = 0).
    { destruct (Rmult_integral _ _ HdR) as [K|K]; [contradiction|exact K]. }
    split; [|exact HI]. subst I_. rewrite Rmult_0_r, Rminus_0_r in HdI.
    destruct (Rmult_integral _ _ HdI) as [K|K]; [contradiction|exact K].
  - intros [-> ->]. unfold model.
    destruct (Rlt_dec x d0); apply state_ext; unfold Rdiv; ring.
Qed.

Lemma model_rest_iff_witness :
  model (100, 0, 0, 7) 3 107 beta0 60 beta1 gamma sigma = (0, 0, 0, 0)
  <-> 0 = 0 /\ 0 = 0.
Proof.
  apply model_rest_iff.
  - lra.
  - rewrite gamma_value. lra.
  - rewrite sigma_value. lra.
Defined.

Lemma flow_nonneg (b s i n : R) :
  0 <= b -> 0 <= s -> 0 <= i -> 0 < n -> 0 <= b * s * i / n.
Proof.
  intros Hb Hs Hi Hn. unfold Rdiv.
  apply Rmult_le_pos; [|left; now apply Rinv_0_lt_compat].
  repeat apply Rmult_le_pos; assumption.
Qed.

(** X3.  For a positive population, non-negative [S] and [I] and
    non-negative rates, the susceptible compartment never grows
    ([dS <= 0]), the recovered compartment never shrinks ([dR >= 0]), and
    what leaves S enters E: [dS + dE = - sigma * E]. *)
Theorem model_signs (S_ E_ I_ R_ x N b0 d0 b1 g sg : R) :
  0 < N -> 0 <= S_ -> 0 <= I_ -> 0 <= b0 -> 0 <= b1 -> 0 <= g ->
  let '(dS, dE, dI, dR) := model (S_, E_, I_, R_) x N b0 d0 b1 g sg in
  dS <= 0 /\ 0 <= dR /\ dS + dE = - (sg * E_).
Proof.
  intros HN HS HI Hb0 Hb1 Hg. unfold model.
  set (b := if Rlt_dec x d0 then b0 else b1).
  assert (Hb : 0 <= b) by (unfold b; destruct (Rlt_dec x d0); assumption).
  pose proof (flow_nonneg b S_ I_ N Hb HS HI HN) as Hflow.
  repeat split.
  - replace (- b * S_ * I_ / N) with (- (b * S_ * I_ / N))
      by (unfold Rdiv; ring).
    lra.
  - apply Rmult_le_pos; assumption.
  - unfold Rdiv; ring.
Qed.

Lemma model_signs_witness :
  let '(dS, dE, dI, dR) := model (90, 4, 5, 1) 10 100 3 60 1 2 7 in
  dS <= 0 /\ 0 <= dR /\ dS + dE = - (7 * 4).
Proof. apply (model_signs 90 4 5 1 10 100 3 60 1 2 7); lra. Defined.

(** X4.  With the script's rates ([beta = r * gamma]) the infected pool
    [E + I] changes at the rate [gamma * I * (r * S / N - 1)]: before the
    lockdown day [r] is [r0]; from the lockdown day on [r] is [r1 = 1], so for
    [0 <= S <= N] and [I >= 0] the pool no longer grows. *)
Theorem infected_pool (S_ E_ I_ R_ x N : R) :
  0 < N -> 0 <= S_ <= N -> 0 <= I_ ->
  let '(dS, dE, dI, dR) :=
    model (S_, E_, I_, R_) x N beta0 days_before_lockdown beta1 gamma sigma in
  (x < IZR days_before_lockdown ->
   dE + dI = gamma * I_ * (r0 * (S_ / N) - 1)) /\
  (IZR days_before_lockdown <= x ->
   dE + dI = gamma * I_ * (S_ / N - 1) /\ dE + dI <= 0).
Proof.
  intros HN HS HI. unfold model.
  assert (Hg : 0 < gamma) by (rewrite gamma_value; lra).
  assert (Hq : 0 <= S_ / N <= 1).
  { unfold Rdiv. pose proof (Rinv_0_lt_compat N HN) as Hi.
    split.
    - apply Rmult_le_pos; lra.
    - apply (Rmult_le_reg_r N); [assumption|].
      rewrite Rmult_assoc, Rinv_l by lra. lra. }
  destruct (Rlt_dec x days_before_lockdown) as [Hlt|Hge];
    split; intros Hx; try lra.
  - unfold beta0, Rdiv. ring.
  - assert (Heq : beta1 * S_ * I_ / N - sigma * E_ + (sigma * E_ - gamma * I_)
                  = gamma * I_ * (S_ / N - 1)).
    { unfold beta1, r1, Rdiv. replace 1.0 with 1 by lra. ring. }
    split; [exact Heq|]. rewrite Heq.
    assert (0 <= gamma * I_) by (apply Rmult_le_pos; lra). nra.
Qed.

Lemma infected_pool_witness :
  let '(dS, dE, dI, dR) :=
    model (50, 10, 20, 20) 100 100 beta0 days_before_lockdown beta1 gamma sigma in
  (100 < IZR days_before_lockdown ->
   dE + dI = gamma * 20 * (r0 * (50 / 100) - 1)) /\
  (IZR days_before_lockdown <= 100 ->
   dE + dI = gamma * 20 * (50 / 100 - 1) /\ dE + dI <= 0).
Proof. apply (infected_pool 50 10 20 20 100 100); lra. Defined.

(* ================================================================== *)
(** * Further properties of the derived series *)
(* ================================================================== *)

(** X5.  On a day with [0 <= I[i] <= population], the undelayed series stay
    in range: detected cases and ICU load are non-negative and at most
    [I[i]], and [P[i]] lies between 0 and one million. *)
Theorem raw_series_bounds (I_ : list R) (i : nat) :
  0 <= nth i I_ 0 <= IZR population ->
  0 <= nth i (F_raw I_) 0 <= nth i I_ 0 /\
  0 <= nth i (U_raw I_) 0 <= nth i I_ 0 /\
  0 <= nth i (P I_) 0 <= 1000000.
Proof.
  intros [Hlo Hhi]. unfold F_raw, U_raw, P.
  rewrite (nth_scaled (fun v => v * percent_cases_detected)) by ring.
  rewrite (nth_scaled (fun v => v * icuRate * timeInHospital / timeInfected))
    by (unfold Rdiv; ring).
  rewrite (nth_scaled (fun v => v / population * 1000000))
    by (unfold Rdiv; ring).
  set (v := nth i I_ 0) in *.
  rewrite timeInfected_value.
  unfold percent_cases_detected, percent_asymptomatic, icuRate,
    infectionFatalityRateA, timeInHospital, population, florida_population in *.
  repeat split; try lra.
Qed.

Lemma raw_series_bounds_witness :
  0 <= nth 1 (F_raw [0; 1000]) 0 <= nth 1 [0; 1000] 0 /\
  0 <= nth 1 (U_raw [0; 1000]) 0 <= nth 1 [0; 1000] 0 /\
  0 <= nth 1 (P [0; 1000]) 0 <= 1000000.
Proof.
  apply (raw_series_bounds [0; 1000] 1). simpl.
  unfold population, florida_population. lra.
Defined.

Lemma last_is_nth (m : list R) : m <> [] -> last m 0 = nth (length m - 1) m 0.
Proof.
  induction m as [|a m IH]; [congruence|intros _].
  destruct m as [|b m]; [reflexivity|].
  change (last (a :: b :: m) 0) with (last (b :: m) 0).
  rewrite IH by discriminate. simpl. now rewrite Nat.sub_0_r.
Qed.

(** X6.  The detected-cases series is recovered from the cumulated one by
    differencing: [FC[0] = F[0]], [FC[i+1] - FC[i] = F[i+1]], and the last
    entry of [FC] is the sum of all of [F]. *)
Theorem cumulative_differences (delay : list R -> R -> list R) (I_ : list R) :
  nth 0 (FC delay I_) 0 = nth 0 (F delay I_) 0 /\
  (forall i, (S i < length (F delay I_))%nat ->
     nth (S i) (FC delay I_) 0 - nth i (FC delay I_) 0
     = nth (S i) (F delay I_) 0) /\
  last (FC delay I_) 0 = total (F delay I_).
Proof.
  unfold FC, cumsum. set (l := F delay I_). repeat split.
  - destruct l; simpl; [reflexivity|ring].
  - intros i Hi. rewrite cumsum_from_step by assumption. ring.
  - destruct l as [|a l'] eqn:El; [reflexivity|]. rewrite <- El.
    assert (Hn : (0 < length l)%nat) by (rewrite El; simpl; lia).
    rewrite last_is_nth
      by (intros K; apply (f_equal (@length R)) in K;
          rewrite length_cumsum_from in K; simpl in K; lia).
    rewrite length_cumsum_from, nth_cumsum_from by lia.
    replace (S (length l - 1)) with (length l) by lia.
    rewrite firstn_all. ring.
Qed.

Lemma cumulative_differences_witness :
  nth 1 (FC Standin.unshifted [1000; 2000; 4000]) 0
  - nth 0 (FC Standin.unshifted [1000; 2000; 4000]) 0
  = nth 1 (F Standin.unshifted [1000; 2000; 4000]) 0.
Proof.
  apply (proj1 (proj2 (cumulative_differences Standin.unshifted
                         [1000; 2000; 4000]))).
  simpl. lia.
Defined.

(* ================================================================== *)
(** * Further properties of the deaths loop *)
(* ================================================================== *)

Lemma trunc_below (x : R) : 0 <= x -> IZR (trunc x) <= x.
Proof.
  intros H. unfold trunc. destruct (Rle_dec 0 x); [|contradiction].
  destruct (base_Int_part x). assumption.
Qed.

Lemma trunc_above (x : R) (z : Z) :
  (0 <= z)%Z -> IZR z <= x -> (z <= trunc x)%Z.
Proof.
  intros Hz Hx. apply IZR_le in Hz. unfold trunc.
  destruct (Rle_dec 0 x); [|lra].
  destruct (base_Int_part x) as [_ Hgt].
  assert (Hlt : IZR (z - 1) < IZR (Int_part x)) by (rewrite minus_IZR; lra).
  apply lt_IZR in Hlt. lia.
Qed.

(** A whole number of deaths already stored passes through the truncation
    untouched; only the day's increment is cut. *)
Lemma trunc_shift (z : Z) (x : R) :
  (0 <= z)%Z -> 0 <= x -> trunc (IZR z + x) = (z + trunc x)%Z.
Proof.
  intros Hz Hx. pose proof (IZR_le _ _ Hz) as Hz'.
  unfold trunc.
  destruct (Rle_dec 0 (IZR z + x)); [|lra].
  destruct (Rle_dec 0 x); [|contradiction].
  destruct (base_Int_part x) as [Hlo Hhi].
  apply Int_part_eq. rewrite plus_IZR. lra.
Qed.

Lemma trunc_small (x : R) : 0 <= x < 1 -> trunc x = 0%Z.
Proof. intros H. apply trunc_eq; [lia|lra]. Qed.

Lemma IFR_of_range (u : R) : 0.01 <= IFR_of u <= 0.03.
Proof.
  unfold IFR_of, infectionFatalityRateB, infectionFatalityRateA.
  destruct (Rle_dec u intensive_units); lra.
Qed.

Section RisingRecovered.

Variables (n : nat) (U_ R_ : list R) (D : list Z).
Hypothesis Hrec : forall i, (i < n)%nat -> nth i D 0%Z = stored U_ R_ D i.
Hypothesis Hstart : 0 <= nth 0 R_ 0.
Hypothesis Hrise : forall i, (S i < n)%nat -> nth i R_ 0 <= nth (S i) R_ 0.

Lemma recovered_step (i : nat) : (i < n)%nat -> prev_R R_ i <= nth i R_ 0.
Proof.
  intros Hi. destruct i as [|i]; simpl; [assumption|now apply Hrise].
Qed.

Lemma increment_nonneg (i : nat) :
  (i < n)%nat -> 0 <= IFR_of (nth i U_ 0) * (nth i R_ 0 - prev_R R_ i).
Proof.
  intros Hi. pose proof (recovered_step i Hi).
  pose proof (IFR_of_range (nth i U_ 0)).
  apply Rmult_le_pos; lra.
Qed.

Lemma stored_rises (i : nat) :
  (i < n)%nat -> (0 <= prev_Z D i)%Z /\ (prev_Z D i <= nth i D 0%Z)%Z.
Proof.
  induction i as [|i IH]; intros Hi.
  - split; [simpl; lia|]. rewrite Hrec by assumption. unfold stored.
    apply trunc_above; [simpl; lia|].
    pose proof (increment_nonneg 0 Hi). lra.
  - destruct (IH ltac:(lia)) as [H0 H1].
    assert (Hp : (0 <= prev_Z D (S i))%Z) by (simpl; lia).
    split; [assumption|]. rewrite (Hrec (S i)) by assumption. unfold stored.
    apply trunc_above; [assumption|].
    pose proof (increment_nonneg (S i) Hi). lra.
Qed.

Lemma stored_adds (i : nat) :
  (i < n)%nat ->
  nth i D 0%Z
  = (prev_Z D i + trunc (IFR_of (nth i U_ 0) * (nth i R_ 0 - prev_R R_ i))%R)%Z.
Proof.
  intros Hi. rewrite Hrec at 1 by assumption. unfold stored.
  apply trunc_shift.
  - now destruct (stored_rises i Hi).
  - now apply increment_nonneg.
Qed.

Lemma stored_below_exact (i : nat) :
  (i < n)%nat -> IZR (nth i D 0%Z) <= Deaths_exact U_ R_ i.
Proof.
  induction i as [|i IH]; intros Hi.
  - rewrite Hrec by assumption. unfold stored.
    pose proof (increment_nonneg 0 Hi) as Hinc.
    cbn [prev_Z prev_R Deaths_exact] in *.
    etransitivity; [apply trunc_below; lra|]. lra.
  - specialize (IH ltac:(lia)).
    destruct (stored_rises (S i) Hi) as [Hp _]. apply IZR_le in Hp.
    pose proof (increment_nonneg (S i) Hi) as Hinc.
    rewrite (Hrec (S i)) by assumption. unfold stored.
    cbn [prev_Z prev_R Deaths_exact] in *.
    etransitivity; [apply trunc_below; lra|]. lra.
Qed.

Lemma exact_between (i : nat) :
  (i < n)%nat ->
  0.01 * nth i R_ 0 <= Deaths_exact U_ R_ i <= 0.03 * nth i R_ 0.
Proof.
  induction i as [|i IH]; intros Hi.
  - pose proof (IFR_of_range (nth 0 U_ 0)). simpl. nra.
  - specialize (IH ltac:(lia)).
    pose proof (IFR_of_range (nth (S i) U_ 0)).
    pose proof (Hrise i Hi).
    cbn [prev_R Deaths_exact]. nra.
Qed.

Lemma stored_stuck (i : nat) :
  (forall j, (j < n)%nat ->
     IFR_of (nth j U_ 0) * (nth j R_ 0 - prev_R R_ j) < 1) ->
  (i < n)%nat -> nth i D 0%Z = 0%Z.
Proof.
  intros Hsmall. induction i as [|i IH]; intros Hi.
  - rewrite stored_adds by assumption.
    rewrite trunc_small; [reflexivity|].
    split; [now apply increment_nonneg|now apply Hsmall].
  - rewrite stored_adds by assumption. cbn [prev_Z].
    rewrite IH by lia.
    rewrite trunc_small; [reflexivity|].
    split; [now apply (increment_nonneg (S i))|now apply (Hsmall (S i))].
Qed.

End RisingRecovered.

(** X7.  When the recovered series starts at a non-negative value and never
    decreases, the stored deaths are non-negative and never decrease. *)
Theorem deaths_monotone (daysTotal : nat) (X : list Z) (U_ R_ : list R) :
  length X = daysTotal ->
  (daysTotal <= length U_)%nat -> (daysTotal <= length R_)%nat ->
  0 <= nth 0 R_ 0 ->
  (forall i, (S i < daysTotal)%nat -> nth i R_ 0 <= nth (S i) R_ 0) ->
  exists D : list Z,
    deaths_loop daysTotal X U_ R_ = Returns D /\
    forall i j, (i <= j)%nat -> (j < daysTotal)%nat ->
      (0 <= nth i D 0%Z <= nth j D 0%Z)%Z.
Proof.
  intros HX HU HR H0 Hrise.
  destruct (deaths_loop_returns daysTotal U_ R_ HU HR X HX)
    as (D & Hret & Hlen & Hrec).
  exists D. split; [assumption|].
  assert (Hpos : forall i, (i < daysTotal)%nat -> (0 <= nth i D 0%Z)%Z).
  { intros i Hi.
    destruct (stored_rises daysTotal U_ R_ D Hrec H0 Hrise i Hi). lia. }
  intros i j Hij Hj. split; [apply Hpos; lia|].
  induction Hij as [|j Hij IH]; [lia|].
  destruct (stored_rises daysTotal U_ R_ D Hrec H0 Hrise (S j) Hj) as [_ Hs].
  simpl in Hs. specialize (IH ltac:(lia)). lia.
Qed.

Lemma deaths_monotone_witness :
  exists D : list Z,
    deaths_loop 2 [0%Z; 1%Z] [0; 0] [0; 150] = Returns D /\
    forall i j, (i <= j)%nat -> (j < 2)%nat ->
      (0 <= nth i D 0%Z <= nth j D 0%Z)%Z.
Proof.
  apply (deaths_monotone 2 [0%Z; 1%Z] [0; 0] [0; 150]).
  - reflexivity.
  - simpl. lia.
  - simpl. lia.
  - simpl. lra.
  - intros i Hi. assert (Hz : i = 0%nat) by lia. rewrite Hz. simpl. lra.
Defined.

(** X8.  Under the same condition the stored deaths on day [i] are at most
    [infectionFatalityRateB * R[i]] and more than
    [infectionFatalityRateA * R[i] - (i + 1)]. *)
Theorem deaths_within_rates (daysTotal : nat) (X : list Z) (U_ R_ : list R) :
  length X = daysTotal ->
  (daysTotal <= length U_)%nat -> (daysTotal <= length R_)%nat ->
  0 <= nth 0 R_ 0 ->
  (forall i, (S i < daysTotal)%nat -> nth i R_ 0 <= nth (S i) R_ 0) ->
  exists D : list Z,
    deaths_loop daysTotal X U_ R_ = Returns D /\
    forall i, (i < daysTotal)%nat ->
      infectionFatalityRateA * nth i R_ 0 - INR (S i) < IZR (nth i D 0%Z)
      /\ IZR (nth i D 0%Z) <= infectionFatalityRateB * nth i R_ 0.
Proof.
  intros HX HU HR H0 Hrise.
  destruct (deaths_loop_returns daysTotal U_ R_ HU HR X HX)
    as (D & Hret & Hlen & Hrec).
  exists D. split; [assumption|]. intros i Hi.
  pose proof (stored_below_exact daysTotal U_ R_ D Hrec H0 Hrise i Hi) as Hup.
  pose proof (exact_between daysTotal U_ R_ H0 Hrise i Hi) as [Hlo Hhi].
  pose proof (deaths_gap daysTotal U_ R_ HU HR D Hrec i Hi) as Hgap.
  apply Rabs_def2 in Hgap.
  unfold infectionFatalityRateB, infectionFatalityRateA. lra.
Qed.

Lemma deaths_within_rates_witness :
  exists D : list Z,
    deaths_loop 2 [0%Z; 1%Z] [0; 0] [0; 150] = Returns D /\
    forall i, (i < 2)%nat ->
      infectionFatalityRateA * nth i [0; 150] 0 - INR (S i) < IZR (nth i D 0%Z)
      /\ IZR (nth i D 0%Z) <= infectionFatalityRateB * nth i [0; 150] 0.
Proof.
  apply (deaths_within_rates 2 [0%Z; 1%Z] [0; 0] [0; 150]).
  - reflexivity.
  - simpl. lia.
  - simpl. lia.
  - simpl. lra.
  - intros i Hi. assert (Hz : i = 0%nat) by lia. rewrite Hz. simpl. lra.
Defined.

(** X9.  Under the same condition each day adds the whole part of that
    day's increment and drops the fraction:
    [D[i] = D[i-1] + trunc(IFR(i) * (R[i] - R[i-1]))].  In particular, as long
    as every daily increment is below one, the stored deaths stay at zero. *)
Theorem deaths_daily_floor (daysTotal : nat) (X : list Z) (U_ R_ : list R) :
  length X = daysTotal ->
  (daysTotal <= length U_)%nat -> (daysTotal <= length R_)%nat ->
  0 <= nth 0 R_ 0 ->
  (forall i, (S i < daysTotal)%nat -> nth i R_ 0 <= nth (S i) R_ 0) ->
  exists D : list Z,
    deaths_loop daysTotal X U_ R_ = Returns D /\
    (forall i, (i < daysTotal)%nat ->
       nth i D 0%Z
       = (prev_Z D i
          + trunc (IFR_of (nth i U_ 0) * (nth i R_ 0 - prev_R R_ i))%R)%Z) /\
    ((forall j, (j < daysTotal)%nat ->
        IFR_of (nth j U_ 0) * (nth j R_ 0 - prev_R R_ j) < 1) ->
     forall i, (i < daysTotal)%nat -> nth i D 0%Z = 0%Z).
Proof.
  intros HX HU HR H0 Hrise.
  destruct (deaths_loop_returns daysTotal U_ R_ HU HR X HX)
    as (D & Hret & Hlen & Hrec).
  exists D. split; [assumption|]. split.
  - intros i Hi. now apply (stored_adds daysTotal U_ R_ D Hrec H0 Hrise).
  - intros Hsmall i Hi.
    now apply (stored_stuck daysTotal U_ R_ D Hrec H0 Hrise i Hsmall).
Qed.

Lemma deaths_daily_floor_witness :
  exists D : list Z,
    deaths_loop 2 [0%Z; 1%Z] [0; 0] [0; 90] = Returns D /\
    (forall i, (i < 2)%nat ->
       nth i D 0%Z
       = (prev_Z D i
          + trunc (IFR_of (nth i [0; 0] 0)
                   * (nth i [0; 90] 0 - prev_R [0; 90] i))%R)%Z) /\
    ((forall j, (j < 2)%nat ->
        IFR_of (nth j [0; 0] 0) * (nth j [0; 90] 0 - prev_R [0; 90] j) < 1) ->
     forall i, (i < 2)%nat -> nth i D 0%Z = 0%Z).
Proof.
  apply (deaths_daily_floor 2 [0%Z; 1%Z] [0; 0] [0; 90]).
  - reflexivity.
  - simpl. lia.
  - simpl. lia.
  - simpl. lra.
  - intros i Hi. assert (Hz : i = 0%nat) by lia. rewrite Hz. simpl. lra.
Defined.

(* ================================================================== *)
(** * Failure and completion of the loop and of the run *)
(* ================================================================== *)

Lemma getitem_outside {A : Type} (l : list A) (i : nat) :
  (length l <= i)%nat -> getitem l i = Raises IndexError.
Proof.
  intros H. unfold getitem. apply nth_error_None in H. now rewrite H.
Qed.

Lemma setitem_outside {A : Type} (l : list A) (i : nat) (v : A) :
  (length l <= i)%nat -> setitem l i v = Raises IndexError.
Proof.
  intros H. unfold setitem. apply Nat.ltb_ge in H. now rewrite H.
Qed.

Lemma deaths_body_inside (U_ R_ : list R) (st : loop_state) (k : nat) :
  (k < length (D_arr st))%nat -> (k < length U_)%nat -> (k < length R_)%nat ->
  exists st', deaths_body U_ R_ st k = Returns st'
              /\ length (D_arr st') = length (D_arr st).
Proof.
  intros HD HU HR. unfold deaths_body.
  rewrite (getitem_nth U_ k 0) by assumption. cbn [bind].
  rewrite (getitem_nth R_ k 0) by assumption. cbn [bind].
  rewrite setitem_inside by assumption. cbn [bind].
  rewrite (getitem_nth (update _ _ _) k 0%Z) by now rewrite length_update.
  cbn [bind]. eexists. split; [reflexivity|]. cbn [D_arr]. apply length_update.
Qed.

Lemma deaths_body_outside (U_ R_ : list R) (st : loop_state) (k : nat) :
  (length (D_arr st) <= k)%nat \/ (length U_ <= k)%nat \/ (length R_ <= k)%nat ->
  deaths_body U_ R_ st k = Raises IndexError.
Proof.
  intros H. unfold deaths_body.
  destruct (le_lt_dec (length U_) k) as [HU|HU].
  { now rewrite getitem_outside. }
  rewrite (getitem_nth U_ k 0) by assumption. cbn [bind].
  destruct (le_lt_dec (length R_) k) as [HR|HR].
  { now rewrite getitem_outside. }
  rewrite (getitem_nth R_ k 0) by assumption. cbn [bind].
  rewrite setitem_outside by lia. reflexivity.
Qed.

Lemma for_each_deaths_inside (U_ R_ : list R) (m k : nat) (st : loop_state) :
  (k + m <= length (D_arr st))%nat -> (k + m <= length U_)%nat ->
  (k + m <= length R_)%nat ->
  exists st', for_each (deaths_body U_ R_) st (seq k m) = Returns st'
              /\ length (D_arr st') = length (D_arr st).
Proof.
  revert k st. induction m as [|m IH]; intros k st HD HU HR.
  - exists st. split; reflexivity.
  - destruct (deaths_body_inside U_ R_ st k) as (st1 & Hb & Hl); try lia.
    destruct (IH (S k) st1) as (st' & Hf & Hl'); try lia.
    exists st'. split; [|lia]. cbn [seq for_each]. rewrite Hb. exact Hf.
Qed.

Lemma for_each_deaths_outside (U_ R_ : list R) (m k : nat) (st : loop_state) :
  (k <= length (D_arr st))%nat -> (k <= length U_)%nat -> (k <= length R_)%nat ->
  (length (D_arr st) < k + m)%nat \/ (length U_ < k + m)%nat
  \/ (length R_ < k + m)%nat ->
  for_each (deaths_body U_ R_) st (seq k m) = Raises IndexError.
Proof.
  revert k st. induction m as [|m IH]; intros k st HD HU HR Hout; [lia|].
  cbn [seq for_each].
  destruct (le_lt_dec (length (D_arr st)) k) as [H1|H1];
    [rewrite deaths_body_outside by lia; reflexivity|].
  destruct (le_lt_dec (length U_) k) as [H2|H2];
    [rewrite deaths_body_outside by lia; reflexivity|].
  destruct (le_lt_dec (length R_) k) as [H3|H3];
    [rewrite deaths_body_outside by lia; reflexivity|].
  destruct (deaths_body_inside U_ R_ st k H1 H2 H3) as (st1 & Hb & Hl).
  rewrite Hb. cbn [bind]. apply IH; lia.
Qed.

(** The loop either runs through or stops with [IndexError]. *)
Lemma deaths_loop_cases (daysTotal : nat) (X : list Z) (U_ R_ : list R) :
  ((length X <= daysTotal)%nat /\ (length X <= length U_)%nat /\
   (length X <= length R_)%nat /\
   exists D, deaths_loop daysTotal X U_ R_ = Returns D /\ length D = daysTotal)
  \/
  (((daysTotal < length X)%nat \/ (length U_ < length X)%nat \/
    (length R_ < length X)%nat) /\
   deaths_loop daysTotal X U_ R_ = Raises IndexError).
Proof.
  unfold deaths_loop.
  set (st0 := {| D_arr := arange daysTotal; RPrev := 0; DPrev := 0 |}).
  assert (Hl0 : length (D_arr st0) = daysTotal) by apply length_arange.
  destruct (le_lt_dec (length X) daysTotal) as [H1|H1];
  [destruct (le_lt_dec (length X) (length U_)) as [H2|H2];
   [destruct (le_lt_dec (length X) (length R_)) as [H3|H3]|]|].
  - left. repeat split; try assumption.
    destruct (for_each_deaths_inside U_ R_ (length X) 0 st0) as (st & Hf & Hl);
      [rewrite Hl0; simpl; lia | simpl; lia | simpl; lia |].
    exists (D_arr st). rewrite Hf. split; [reflexivity|lia].
  - right. split; [lia|].
    rewrite for_each_deaths_outside; [reflexivity | lia | lia | lia |].
    rewrite Hl0. simpl. lia.
  - right. split; [lia|].
    rewrite for_each_deaths_outside; [reflexivity | lia | lia | lia |].
    rewrite Hl0. simpl. lia.
  - right. split; [lia|].
    rewrite for_each_deaths_outside; [reflexivity | lia | lia | lia |].
    rewrite Hl0. simpl. lia.
Qed.

(** X10.  The loop returns an array of [daysTotal] integers exactly when
    the day grid is no longer than [daysTotal], than [U] and than [R];
    otherwise it raises [IndexError], and nothing else. *)
Theorem deaths_loop_outcome (daysTotal : nat) (X : list Z) (U_ R_ : list R) :
  ((length X <= daysTotal)%nat /\ (length X <= length U_)%nat /\
   (length X <= length R_)%nat /\
   exists D, deaths_loop daysTotal X U_ R_ = Returns D /\ length D = daysTotal)
  \/
  (((daysTotal < length X)%nat \/ (length U_ < length X)%nat \/
    (length R_ < length X)%nat) /\
   deaths_loop daysTotal X U_ R_ = Raises IndexError).
Proof. apply deaths_loop_cases. Qed.

Lemma run_unfold (daysTotal : nat) (odeint : odeint_fn)
    (delay : list R -> R -> list R) :
  run daysTotal odeint delay =
  match odeint (fun Y x => model Y x population beta0 days_before_lockdown
                             beta1 gamma sigma)
               (IZR population - IZR E0, IZR E0, 0, 0)
               (map IZR (arange daysTotal)) with
  | Raises e => Raises e
  | Returns r =>
      match deaths_loop daysTotal (arange daysTotal)
              (U delay (col_I (y_data r))) (col_R (y_data r)) with
      | Raises e => Raises e
      | Returns D =>
          Returns {| sX := arange daysTotal;
                     sS := col_S (y_data r); sE := col_E (y_data r);
                     sI := col_I (y_data r); sR := col_R (y_data r);
                     sF := F delay (col_I (y_data r));
                     sU := U delay (col_I (y_data r));
                     sP := P (col_I (y_data r));
                     sFC := FC delay (col_I (y_data r));
                     sD := delay (map IZR D) D_lag |}
      end
  end.
Proof.
  unfold run. rewrite solve_unfold.
  destruct (odeint _ _ _) as [r|e]; [|reflexivity].
  cbn [bind tX tS tE tI tR]. unfold D_delayed.
  destruct (deaths_loop _ _ _ _); reflexivity.
Qed.

(** X11.  When the solver returns one row per day and the delay operator
    returns as many values as it is given, lines 113-143 run through: every
    series of the result has [daysTotal] entries, on the grid
    [0 .. daysTotal - 1], with [I] and [R] the solver's columns. *)
Theorem run_completes (daysTotal : nat) (odeint : odeint_fn)
    (delay : list R -> R -> list R) (r : odeint_run) :
  odeint (fun Y x => model Y x population beta0 days_before_lockdown
                       beta1 gamma sigma)
         (IZR population - IZR E0, IZR E0, 0, 0)
         (map IZR (arange daysTotal)) = Returns r ->
  length (y_data r) = daysTotal ->
  keeps_length delay ->
  exists s, run daysTotal odeint delay = Returns s /\
    Forall (fun l => length l = daysTotal)
      [sS s; sE s; sI s; sR s; sF s; sU s; sP s; sFC s; sD s] /\
    sX s = arange daysTotal /\
    sI s = col_I (y_data r) /\ sR s = col_R (y_data r).
Proof.
  intros Hode Hrows Hkeep.
  destruct (length_columns (y_data r)) as (HS & HE & HI & HR).
  assert (HU : length (U delay (col_I (y_data r))) = daysTotal).
  { unfold U. rewrite !Hkeep. unfold U_raw. rewrite length_map. lia. }
  assert (HF : length (F delay (col_I (y_data r))) = daysTotal).
  { unfold F. rewrite Hkeep. unfold F_raw. rewrite length_map. lia. }
  destruct (deaths_loop_cases daysTotal (arange daysTotal)
              (U delay (col_I (y_data r))) (col_R (y_data r)))
    as [(_ & _ & _ & D & HD & HlenD)|[Hbad _]].
  - rewrite run_unfold, Hode, HD. eexists. split; [reflexivity|].
    cbn [sX sS sE sI sR sF sU sP sFC sD].
    split; [|repeat split].
    repeat constructor; try lia.
    + unfold P. rewrite length_map. lia.
    + unfold FC, cumsum. rewrite length_cumsum_from. lia.
    + rewrite Hkeep, length_map. lia.
  - rewrite length_arange in Hbad. lia.
Qed.

(** X12.  Provided every call of [shared.delay] returns (the delay operator
    is a function here, it cannot raise): an exception raised by the solver
    call is passed on unchanged; a delayed ICU series or a solver result
    shorter than [daysTotal] makes the deaths loop raise [IndexError]; and in
    every other case the run returns a result. *)
Theorem run_outcome (daysTotal : nat) (odeint : odeint_fn)
    (delay : list R -> R -> list R) :
  match odeint (fun Y x => model Y x population beta0 days_before_lockdown
                             beta1 gamma sigma)
               (IZR population - IZR E0, IZR E0, 0, 0)
               (map IZR (arange daysTotal)) with
  | Raises e => run daysTotal odeint delay = Raises e
  | Returns r =>
      ((daysTotal <= length (U delay (col_I (y_data r))))%nat /\
       (daysTotal <= length (y_data r))%nat /\
       exists s, run daysTotal odeint delay = Returns s)
      \/
      (((length (U delay (col_I (y_data r))) < daysTotal)%nat \/
        (length (y_data r) < daysTotal)%nat) /\
       run daysTotal odeint delay = Raises IndexError)
  end.
Proof.
  rewrite run_unfold.
  destruct (odeint _ _ _) as [r|e]; [|reflexivity].
  destruct (length_columns (y_data r)) as (_ & _ & _ & HR).
  destruct (deaths_loop_cases daysTotal (arange daysTotal)
              (U delay (col_I (y_data r))) (col_R (y_data r)))
    as [(_ & H2 & H3 & D & HD & _)|[Hbad HD]];
    rewrite length_arange in *; rewrite HD.
  - left. repeat split; try lia. eexists. reflexivity.
  - right. split; [lia|reflexivity].
Qed.

Lemma run_completes_witness :
  exists s, run 3 Standin.euler Standin.unshifted = Returns s /\
    Forall (fun l => length l = 3%nat)
      [sS s; sE s; sI s; sR s; sF s; sU s; sP s; sFC s; sD s] /\
    sX s = arange 3 /\
    sI s = col_I ((IZR population - IZR E0, IZR E0, 0, 0)
                  :: Standin.euler_rows
                       (fun Y x => model Y x population beta0
                                     days_before_lockdown beta1 gamma sigma)
                       (IZR population - IZR E0, IZR E0, 0, 0) 0 [IZR 1; IZR 2]) /\
    sR s = col_R ((IZR population - IZR E0, IZR E0, 0, 0)
                  :: Standin.euler_rows
                       (fun Y x => model Y x population beta0
                                     days_before_lockdown beta1 gamma sigma)
                       (IZR population - IZR E0, IZR E0, 0, 0) 0 [IZR 1; IZR 2]).
Proof.
  apply (run_completes 3 Standin.euler Standin.unshifted
           {| y_data :=
                (IZR population - IZR E0, IZR E0, 0, 0)
                :: Standin.euler_rows
                     (fun Y x => model Y x population beta0
                                   days_before_lockdown beta1 gamma sigma)
                     (IZR population - IZR E0, IZR E0, 0, 0) 0 [IZR 1; IZR 2];
              converged := true |}).
  - reflexivity.
  - reflexivity.
  - intros l d. reflexivity.
Defined.
